(** * scrap: the intermediate representation (src/ir.h, src/ir.cc, src/main.cc)

    A shallow embedding of the IR layer of the scrap compiler: the opcode
    catalog, the arity switch [op_arity], the branch classifiers, the
    arity-asserting [Instruction] constructors and the [Function] container
    with its three append-only vectors, together with the hand-assembled
    function of [main]. *)

From Stdlib Require Import ZArith List String Bool Lia.
Import ListNotations.

Local Open Scope Z_scope.

(** ** Machine integers *)

Module MachineInt.

(** [uint16_t]: a value converted to the type is reduced modulo 2^16. *)
Definition to_uint16 (z : Z) : Z := z mod 65536.

Definition is_uint16 (z : Z) : Prop := 0 <= z < 65536.

(** [int32_t]: two's complement, 32 bits. *)
Definition to_int32 (z : Z) : Z := (z + 2147483648) mod 4294967296 - 2147483648.

Definition is_int32 (z : Z) : Prop := -2147483648 <= z < 2147483648.

(** [int]: 32 bits, two's complement, on the targets the Makefile builds
    for. *)
Definition to_int (z : Z) : Z := to_int32 z.

End MachineInt.

Import MachineInt.

(** ** The opcode catalog (ir.h, [enum class Opcode : std::uint8_t]) *)

Inductive Opcode : Type :=
  (* utilities *)
  | NOP | PHI | MOV | CMOV
  (* branch targets *)
  | JTARG | JLOOP | JFOR
  (* branching *)
  | JUMP | JT | JF
  (* assertions *)
  | ASSERT | ATYPE
  (* predicates *)
  | EQ | NEQ | IN | NIN | LT | GEQ | GT | LEQ
  (* boolean operations *)
  | AND | NOT2 | OR | XOR | NOT | BOOL
  (* function calls *)
  | SARG | CALL | RET | RETV | TCALL
  (* constants *)
  | INTK | STRK | BOOLK | TYPEK
  (* arithmetic operations *)
  | ADD | SUB | MUL | FDIV | MOD | POW | DIV | MIN | MAX
  | NEG | ABS | FLOOR | CEIL
  (* bitwise operations *)
  | BITAND | BITOR | BITXOR | BITANOT | BITSHR | BITSHL | BITNOT
  (* string operations *)
  | CAT | FMT
  (* indexing operations *)
  | GETI | SETI | DELI
  (* collection operations *)
  | LEN.

(** Every enumerator, in declaration order. *)
Definition catalog : list Opcode :=
  [ NOP; PHI; MOV; CMOV; JTARG; JLOOP; JFOR; JUMP; JT; JF; ASSERT; ATYPE;
    EQ; NEQ; IN; NIN; LT; GEQ; GT; LEQ; AND; NOT2; OR; XOR; NOT; BOOL;
    SARG; CALL; RET; RETV; TCALL; INTK; STRK; BOOLK; TYPEK;
    ADD; SUB; MUL; FDIV; MOD; POW; DIV; MIN; MAX; NEG; ABS; FLOOR; CEIL;
    BITAND; BITOR; BITXOR; BITANOT; BITSHR; BITSHL; BITNOT;
    CAT; FMT; GETI; SETI; DELI; LEN ].

(** The underlying [uint8_t] value of an enumerator: its position in the
    declaration, counted from zero. *)
Definition underlying (op : Opcode) : Z :=
  match op with
  | NOP => 0 | PHI => 1 | MOV => 2 | CMOV => 3
  | JTARG => 4 | JLOOP => 5 | JFOR => 6
  | JUMP => 7 | JT => 8 | JF => 9
  | ASSERT => 10 | ATYPE => 11
  | EQ => 12 | NEQ => 13 | IN => 14 | NIN => 15
  | LT => 16 | GEQ => 17 | GT => 18 | LEQ => 19
  | AND => 20 | NOT2 => 21 | OR => 22 | XOR => 23 | NOT => 24 | BOOL => 25
  | SARG => 26 | CALL => 27 | RET => 28 | RETV => 29 | TCALL => 30
  | INTK => 31 | STRK => 32 | BOOLK => 33 | TYPEK => 34
  | ADD => 35 | SUB => 36 | MUL => 37 | FDIV => 38 | MOD => 39 | POW => 40
  | DIV => 41 | MIN => 42 | MAX => 43
  | NEG => 44 | ABS => 45 | FLOOR => 46 | CEIL => 47
  | BITAND => 48 | BITOR => 49 | BITXOR => 50 | BITANOT => 51
  | BITSHR => 52 | BITSHL => 53 | BITNOT => 54
  | CAT => 55 | FMT => 56
  | GETI => 57 | SETI => 58 | DELI => 59
  | LEN => 60
  end.

(** [op == Opcode::X] on a scoped enumeration compares underlying values. *)
Definition Opcode_eqb (a b : Opcode) : bool := underlying a =? underlying b.

Infix "==?" := Opcode_eqb (at level 70, no associativity).

(** ** The arity switch (ir.cc, [op_arity]) *)

Definition op_arity (op : Opcode) : Z :=
  match op with
  | NOP | JTARG | JLOOP | SARG | RETV => 0
  | MOV | JUMP | ASSERT | NOT | BOOL | RET | INTK | STRK | BOOLK | TYPEK
  | NEG | ABS | FLOOR | CEIL | BITNOT | LEN => 1
  | CMOV | JFOR | SETI => 3
  | _ => 2
  end.

(** ** Branch classifiers (ir.h, inline) *)

Definition op_is_cond_branch (op : Opcode) : bool :=
  (op ==? JT) || (op ==? JF) || (op ==? JFOR).

Definition op_is_uncond_branch (op : Opcode) : bool :=
  op ==? JUMP.

(** ** Failure: the [assert] macro

    The build (Makefile, CXXFLAGS) does not define NDEBUG, so every [assert]
    is live: a false condition aborts the program.  A computation either
    finishes with a value or aborts. *)

Inductive result (A : Type) : Type :=
  | Done (a : A)
  | Abort.

Arguments Done {A} a.
Arguments Abort {A}.

Definition bind {A B : Type} (c : result A) (k : A -> result B) : result B :=
  match c with
  | Done a => k a
  | Abort => Abort
  end.

Notation "x <- c ;; k" := (bind c (fun x => k))
  (at level 61, c at next level, right associativity).
Notation "c ;;; k" := (bind c (fun _ => k))
  (at level 61, right associativity).

Definition assert (cond : bool) : result unit :=
  if cond then Done tt else Abort.

Definition succeeds {A : Type} (c : result A) : Prop :=
  exists a, c = Done a.

Definition aborts {A : Type} (c : result A) : Prop := c = Abort.

(** ** Instruction (ir.h)

    [arg] is the fixed array [uint16_t arg[3]], kept as a list of length 3.
    The constructor parameters have type [uint16_t]: whatever integer the
    caller writes is converted on the way in. *)

Record Instruction : Type := mkInstruction {
  op : Opcode;
  arg : list Z
}.

Definition Instruction0 (op_ : Opcode) : result Instruction :=
  let this := {| op := op_; arg := [0; 0; 0] |} in
  assert (op_arity op_ =? 0) ;;; Done this.

Definition Instruction1 (op_ : Opcode) (arg0 : Z) : result Instruction :=
  let arg0 := to_uint16 arg0 in
  let this := {| op := op_; arg := [arg0; 0; 0] |} in
  assert (op_arity op_ =? 1) ;;; Done this.

Definition Instruction2 (op_ : Opcode) (arg0 arg1 : Z) : result Instruction :=
  let arg0 := to_uint16 arg0 in
  let arg1 := to_uint16 arg1 in
  let this := {| op := op_; arg := [arg0; arg1; 0] |} in
  assert (op_arity op_ =? 2) ;;; Done this.

Definition Instruction3 (op_ : Opcode) (arg0 arg1 arg2 : Z) : result Instruction :=
  let arg0 := to_uint16 arg0 in
  let arg1 := to_uint16 arg1 in
  let arg2 := to_uint16 arg2 in
  let this := {| op := op_; arg := [arg0; arg1; arg2] |} in
  assert (op_arity op_ =? 3) ;;; Done this.

(** The operand list of a constructor call; overload resolution picks the
    constructor by the number of operands written. *)
Inductive Operands : Type :=
  | Ops0
  | Ops1 (arg0 : Z)
  | Ops2 (arg0 arg1 : Z)
  | Ops3 (arg0 arg1 arg2 : Z).

Definition operand_list (a : Operands) : list Z :=
  match a with
  | Ops0 => []
  | Ops1 a0 => [a0]
  | Ops2 a0 a1 => [a0; a1]
  | Ops3 a0 a1 a2 => [a0; a1; a2]
  end.

Definition operand_count (a : Operands) : nat := List.length (operand_list a).

Definition Instruction_new (op_ : Opcode) (a : Operands) : result Instruction :=
  match a with
  | Ops0 => Instruction0 op_
  | Ops1 a0 => Instruction1 op_ a0
  | Ops2 a0 a1 => Instruction2 op_ a0 a1
  | Ops3 a0 a1 a2 => Instruction3 op_ a0 a1 a2
  end.

(** The instruction a constructor call leaves behind when its assertion
    holds. *)
Definition built (op_ : Opcode) (a : Operands) : Instruction :=
  match a with
  | Ops0 => {| op := op_; arg := [0; 0; 0] |}
  | Ops1 a0 => {| op := op_; arg := [to_uint16 a0; 0; 0] |}
  | Ops2 a0 a1 => {| op := op_; arg := [to_uint16 a0; to_uint16 a1; 0] |}
  | Ops3 a0 a1 a2 =>
      {| op := op_; arg := [to_uint16 a0; to_uint16 a1; to_uint16 a2] |}
  end.

(** [i.arg[j]] for an index inside the array. *)
Definition arg_at (i : Instruction) (j : nat) : option Z := nth_error (arg i) j.

(** ** Function (ir.h) *)

Record Function : Type := mkFunction {
  num_pos_args : Z;
  num_upvalues : Z;
  strk_table : list string;
  intk_table : list Z;
  text : list Instruction
}.

(** [Function func;] default-initialises: the three vectors are empty, the
    two [int] members hold whatever was there before. *)
Definition Function_default (junk_pos_args junk_upvalues : Z) : Function :=
  {| num_pos_args := junk_pos_args;
     num_upvalues := junk_upvalues;
     strk_table := [];
     intk_table := [];
     text := [] |}.

Definition set_num_pos_args (func : Function) (n : Z) : Function :=
  {| num_pos_args := to_int n;
     num_upvalues := num_upvalues func;
     strk_table := strk_table func;
     intk_table := intk_table func;
     text := text func |}.

Definition set_num_upvalues (func : Function) (n : Z) : Function :=
  {| num_pos_args := num_pos_args func;
     num_upvalues := to_int n;
     strk_table := strk_table func;
     intk_table := intk_table func;
     text := text func |}.

(** [std::vector::push_back]: the element goes to the end. *)
Definition push_back {A : Type} (v : list A) (x : A) : list A := v ++ [x].

(** [func.text.push_back(i)] *)
Definition text_push_back (func : Function) (i : Instruction) : Function :=
  {| num_pos_args := num_pos_args func;
     num_upvalues := num_upvalues func;
     strk_table := strk_table func;
     intk_table := intk_table func;
     text := push_back (text func) i |}.

(** [func.intk_table.push_back(k)]; the element type is [int32_t]. *)
Definition intk_table_push_back (func : Function) (k : Z) : Function :=
  {| num_pos_args := num_pos_args func;
     num_upvalues := num_upvalues func;
     strk_table := strk_table func;
     intk_table := push_back (intk_table func) (to_int32 k);
     text := text func |}.

(** [func.strk_table.push_back(s)] *)
Definition strk_table_push_back (func : Function) (s : string) : Function :=
  {| num_pos_args := num_pos_args func;
     num_upvalues := num_upvalues func;
     strk_table := push_back (strk_table func) s;
     intk_table := intk_table func;
     text := text func |}.

(** ** The demo (main.cc)

    [main_func] is the state of the local [func] when [main] reaches its
    [return]; [main] itself returns 0. *)

Definition main_func (junk_pos_args junk_upvalues : Z) : result Function :=
  let func := Function_default junk_pos_args junk_upvalues in
  let func := set_num_pos_args func 0 in
  let func := set_num_upvalues func 0 in
  (* x = 1 + 1 *)
  let func := intk_table_push_back func 1 in
  i <- Instruction1 INTK 0 ;;
  let func := text_push_back func i in
  i <- Instruction2 ADD 0 0 ;;
  let func := text_push_back func i in
  (* assert x == 2 *)
  let func := intk_table_push_back func 2 in
  i <- Instruction1 INTK 1 ;;
  let func := text_push_back func i in
  i <- Instruction2 EQ 2 3 ;;
  let func := text_push_back func i in
  i <- Instruction1 ASSERT 4 ;;
  let func := text_push_back func i in
  (* return x *)
  i <- Instruction1 RET 2 ;;
  let func := text_push_back func i in
  Done func.

Definition main (junk_pos_args junk_upvalues : Z) : result Z :=
  main_func junk_pos_args junk_upvalues ;;; Done 0.

(** ** The partition of the specification, section 4.1

    Written from the words of the specification, to be compared with the
    switch of [op_arity]. *)

Definition mem (op : Opcode) (l : list Opcode) : bool :=
  existsb (Opcode_eqb op) l.

Definition arity0_ops : list Opcode := [NOP; JTARG; JLOOP; SARG; RETV].

Definition arity1_ops : list Opcode :=
  [MOV; JUMP; ASSERT; NOT; BOOL; RET; INTK; STRK; BOOLK; TYPEK;
   NEG; ABS; FLOOR; CEIL; BITNOT; LEN].

Definition arity3_ops : list Opcode := [CMOV; JFOR; SETI].

(** The opcodes the specification names as taking two operands: the binary
    arithmetic, bitwise, string, predicate and boolean operations, and PHI,
    JT, JF, ATYPE, CALL, TCALL, GETI, DELI. *)
Definition arity2_named_ops : list Opcode :=
  [ADD; SUB; MUL; FDIV; MOD; POW; DIV; MIN; MAX;
   BITAND; BITOR; BITXOR; BITANOT; BITSHR; BITSHL;
   CAT; FMT;
   EQ; NEQ; IN; NIN; LT; GEQ; GT; LEQ;
   AND; NOT2; OR; XOR;
   PHI; JT; JF; ATYPE; CALL; TCALL; GETI; DELI].

Definition partition_arity (op : Opcode) : Z :=
  if mem op arity0_ops then 0
  else if mem op arity1_ops then 1
  else if mem op arity3_ops then 3
  else 2.

(** ** [op_has_result]

    ir.h declares [bool op_has_result(Opcode op)]; no translation unit of the
    repository defines it. *)








(** ** Reading instructions back, and checks on built values *)

Definition is_uint16b (z : Z) : bool := (0 <=? z) && (z <? 65536).

Definition is_int32b (z : Z) : bool := (-2147483648 <=? z) && (z <? 2147483648).

(** The operands of a constructor call after the conversion to [uint16_t]. *)
Definition Operands_to_uint16 (a : Operands) : Operands :=
  match a with
  | Ops0 => Ops0
  | Ops1 a0 => Ops1 (to_uint16 a0)
  | Ops2 a0 a1 => Ops2 (to_uint16 a0) (to_uint16 a1)
  | Ops3 a0 a1 a2 => Ops3 (to_uint16 a0) (to_uint16 a1) (to_uint16 a2)
  end.

(** What a consumer reads from an instruction: the first [op_arity(i.op)]
    slots of [i.arg], in order. *)
Definition operands_of (i : Instruction) : option Operands :=
  match Z.to_nat (op_arity (op i)), arg i with
  | 0%nat, [_; _; _] => Some Ops0
  | 1%nat, [a0; _; _] => Some (Ops1 a0)
  | 2%nat, [a0; a1; _] => Some (Ops2 a0 a1)
  | 3%nat, [a0; a1; a2] => Some (Ops3 a0 a1 a2)
  | _, _ => None
  end.

(** Shape of an [Instruction] value: three slots, each a [uint16_t], and
    zero in every slot from the arity of the opcode on. *)
Definition Instruction_ok (i : Instruction) : bool :=
  (List.length (arg i) =? 3)%nat
  && forallb is_uint16b (arg i)
  && forallb (Z.eqb 0) (skipn (Z.to_nat (op_arity (op i))) (arg i)).

Definition Function_ok (func : Function) : bool :=
  forallb Instruction_ok (text func) && forallb is_int32b (intk_table func).

(** ** Build scripts

    The three statement forms [main] is written in:
    [func.intk_table.push_back(k)], [func.strk_table.push_back(s)] and
    [func.text.push_back(Instruction(op, operands...))].  A script is a
    sequence of such statements; running it stops at the first constructor
    whose assertion fails. *)

Inductive BuildStep : Type :=
  | PushIntk (k : Z)
  | PushStrk (s : string)
  | Emit (op_ : Opcode) (a : Operands).

Definition step (func : Function) (s : BuildStep) : result Function :=
  match s with
  | PushIntk k => Done (intk_table_push_back func k)
  | PushStrk s => Done (strk_table_push_back func s)
  | Emit op_ a =>
      i <- Instruction_new op_ a ;;
      Done (text_push_back func i)
  end.

Fixpoint run (script : list BuildStep) (func : Function) : result Function :=
  match script with
  | [] => Done func
  | s :: rest => func' <- step func s ;; run rest func'
  end.

(** The statements of [main] after the two assignments to the counts. *)
Definition main_script : list BuildStep :=
  [ PushIntk 1; Emit INTK (Ops1 0); Emit ADD (Ops2 0 0);
    PushIntk 2; Emit INTK (Ops1 1); Emit EQ (Ops2 2 3); Emit ASSERT (Ops1 4);
    Emit RET (Ops1 2) ].

(** Whether the assertion of the constructor in a statement holds. *)
Definition step_ok (s : BuildStep) : bool :=
  match s with
  | Emit op_ a => op_arity op_ =? Z.of_nat (operand_count a)
  | _ => true
  end.

Definition emitted (script : list BuildStep) : list Instruction :=
  flat_map (fun s => match s with Emit op_ a => [built op_ a] | _ => [] end)
           script.

Definition pushed_intk (script : list BuildStep) : list Z :=
  flat_map (fun s => match s with PushIntk k => [to_int32 k] | _ => [] end)
           script.

Definition pushed_strk (script : list BuildStep) : list string :=
  flat_map (fun s => match s with PushStrk s => [s] | _ => [] end) script.

(** The function a script leaves behind when none of its assertions fails. *)
Definition extended (func : Function) (script : list BuildStep) : Function :=
  {| num_pos_args := num_pos_args func;
     num_upvalues := num_upvalues func;
     strk_table := strk_table func ++ pushed_strk script;
     intk_table := intk_table func ++ pushed_intk script;
     text := text func ++ emitted script |}.

(** The vector a statement appends to. *)
Inductive Target : Type := TText | TIntk | TStrk.

Definition target (s : BuildStep) : Target :=
  match s with
  | PushIntk _ => TIntk
  | PushStrk _ => TStrk
  | Emit _ _ => TText
  end.

(** * Properties *)

(** ** Machine integers *)

Lemma to_uint16_id (z : Z) : is_uint16 z -> to_uint16 z = z.
Proof. unfold is_uint16, to_uint16. intros H. now apply Z.mod_small. Qed.

Lemma to_uint16_range (z : Z) : is_uint16 (to_uint16 z).
Proof. unfold is_uint16, to_uint16. apply Z.mod_pos_bound. lia. Qed.

Lemma to_int32_id (z : Z) : is_int32 z -> to_int32 z = z.
Proof.
  unfold is_int32, to_int32. intros H.
  rewrite Z.mod_small; lia.
Qed.

(** ** The catalog and opcode comparison *)

Lemma catalog_nth (op : Opcode) :
  nth_error catalog (Z.to_nat (underlying op)) = Some op.
Proof. destruct op; reflexivity. Qed.

Lemma catalog_complete (op : Opcode) : In op catalog.
Proof. eapply nth_error_In, catalog_nth. Qed.

Lemma catalog_length : List.length catalog = 61%nat.
Proof. reflexivity. Qed.

Lemma underlying_uint8 (op : Opcode) : 0 <= underlying op < 256.
Proof. destruct op; simpl; lia. Qed.

Lemma underlying_inj (a b : Opcode) : underlying a = underlying b -> a = b.
Proof.
  intros H.
  assert (E : Some a = Some b)
    by (rewrite <- (catalog_nth a), <- (catalog_nth b), H; reflexivity).
  now inversion E.
Qed.

Lemma Opcode_eqb_eq (a b : Opcode) : (a ==? b) = true <-> a = b.
Proof.
  unfold Opcode_eqb. rewrite Z.eqb_eq. split.
  - apply underlying_inj.
  - now intros ->.
Qed.

Lemma Opcode_eqb_refl (a : Opcode) : (a ==? a) = true.
Proof. now apply Opcode_eqb_eq. Qed.

Lemma Opcode_eqb_neq (a b : Opcode) : (a ==? b) = false <-> a <> b.
Proof.
  rewrite <- Opcode_eqb_eq. destruct (a ==? b); split; congruence.
Qed.

Lemma mem_In (op : Opcode) (l : list Opcode) : mem op l = true <-> In op l.
Proof.
  unfold mem. rewrite existsb_exists. split.
  - intros [x [Hin Heq]]. apply Opcode_eqb_eq in Heq. now subst.
  - intros Hin. exists op. split; [assumption | apply Opcode_eqb_refl].
Qed.

Lemma mem_not_In (op : Opcode) (l : list Opcode) : mem op l = false <-> ~ In op l.
Proof.
  rewrite <- mem_In. destruct (mem op l); split; congruence.
Qed.

(** Membership in a concrete list of opcodes is settled by evaluation. *)
Ltac decide_mem :=
  repeat match goal with
         | |- In _ _ => apply mem_In; reflexivity
         | |- ~ In _ _ => apply mem_not_In; reflexivity
         | H : In _ _ |- _ => apply mem_In in H; discriminate H
         | H : ~ In _ _ |- _ => apply mem_not_In in H; discriminate H
         end.

(** ** The arity switch *)

Lemma op_arity_partition_arity (op : Opcode) : op_arity op = partition_arity op.
Proof. destruct op; reflexivity. Qed.

(** C1: for every opcode of the catalog, [op_arity] returns the value the
    partition of section 4.1 gives: 0 exactly on NOP, JTARG, JLOOP, SARG,
    RETV; 1 exactly on the sixteen listed unary opcodes; 3 exactly on CMOV,
    JFOR, SETI; 2 exactly on every other opcode, and these are the opcodes
    the specification names as binary (PHI, JT, JF, ATYPE, CALL, TCALL, GETI,
    DELI, the predicates with IN and NIN, and the binary arithmetic, bitwise,
    string and boolean operations). *)
Theorem op_arity_matches_partition :
  forall op : Opcode,
    op_arity op = partition_arity op
    /\ (op_arity op = 0 <-> In op arity0_ops)
    /\ (op_arity op = 1 <-> In op arity1_ops)
    /\ (op_arity op = 3 <-> In op arity3_ops)
    /\ (op_arity op = 2 <-> ~ In op (arity0_ops ++ arity1_ops ++ arity3_ops))
    /\ (op_arity op = 2 <-> In op arity2_named_ops).
Proof.
  intros op. split; [apply op_arity_partition_arity|].
  destruct op; cbn [op_arity];
    repeat split; intros H;
    first [ reflexivity | discriminate H | decide_mem ].
Qed.

Lemma op_arity_range (op : Opcode) : 0 <= op_arity op <= 3.
Proof. destruct op; cbn [op_arity]; lia. Qed.

(** C6: [op_arity] is total and deterministic on the catalog: every opcode
    has exactly one arity, that arity is one of 0, 1, 2, 3, and calls on the
    same opcode agree. *)
Theorem op_arity_total_deterministic :
  (forall op : Opcode,
      exists n : Z,
        op_arity op = n
        /\ In n [0; 1; 2; 3]
        /\ (forall m : Z, op_arity op = m -> m = n))
  /\ (forall op1 op2 : Opcode, op1 = op2 -> op_arity op1 = op_arity op2)
  /\ Forall (fun op => 0 <= op_arity op <= 3) catalog.
Proof.
  split; [| split].
  - intros op. exists (op_arity op). split; [reflexivity | split].
    + destruct op; cbn; tauto.
    + intros m Hm. now symmetry.
  - intros op1 op2 ->. reflexivity.
  - apply Forall_forall. intros op _. apply op_arity_range.
Qed.

(** ** Branch classifiers *)

Lemma op_is_cond_branch_iff (op : Opcode) :
  op_is_cond_branch op = true <-> op = JT \/ op = JF \/ op = JFOR.
Proof.
  unfold op_is_cond_branch.
  rewrite !orb_true_iff, !Opcode_eqb_eq. tauto.
Qed.

Lemma op_is_uncond_branch_iff (op : Opcode) :
  op_is_uncond_branch op = true <-> op = JUMP.
Proof. unfold op_is_uncond_branch. apply Opcode_eqb_eq. Qed.

(** C3: [op_is_cond_branch] holds exactly of JT, JF and JFOR,
    [op_is_uncond_branch] exactly of JUMP; no opcode satisfies both, and one
    of them holds exactly on JUMP, JT, JF, JFOR.  JFOR is conditional and not
    unconditional. *)
Theorem branch_classifiers_partition :
  forall op : Opcode,
    (op_is_cond_branch op = true <-> op = JT \/ op = JF \/ op = JFOR)
    /\ (op_is_uncond_branch op = true <-> op = JUMP)
    /\ op_is_cond_branch op && op_is_uncond_branch op = false
    /\ (op_is_cond_branch op || op_is_uncond_branch op = true
        <-> In op [JUMP; JT; JF; JFOR])
    /\ op_is_cond_branch JFOR = true
    /\ op_is_uncond_branch JFOR = false.
Proof.
  intros op.
  split; [apply op_is_cond_branch_iff|].
  split; [apply op_is_uncond_branch_iff|].
  split; [destruct op; reflexivity|].
  split; [| split; reflexivity].
  rewrite orb_true_iff, op_is_cond_branch_iff, op_is_uncond_branch_iff.
  cbn [In]. intuition congruence.
Qed.

(** ** Instruction construction *)

Lemma assert_bind {A : Type} (cond : bool) (a : A) :
  (assert cond ;;; Done a) = if cond then Done a else Abort.
Proof. destruct cond; reflexivity. Qed.

Lemma succeeds_Done {A : Type} (a : A) : succeeds (Done a).
Proof. now exists a. Qed.

Lemma not_succeeds_Abort {A : Type} : ~ succeeds (@Abort A).
Proof. intros [a H]. discriminate H. Qed.

Lemma succeeds_or_aborts {A : Type} (c : result A) :
  succeeds c <-> ~ aborts c.
Proof.
  unfold aborts. destruct c.
  - split; [discriminate | intros _; apply succeeds_Done].
  - split; [intros H; now apply not_succeeds_Abort in H | congruence].
Qed.

Lemma Instruction_new_unfold (op_ : Opcode) (a : Operands) :
  Instruction_new op_ a =
  if op_arity op_ =? Z.of_nat (operand_count a)
  then Done (built op_ a) else Abort.
Proof.
  destruct a; cbn [Instruction_new operand_count operand_list List.length built];
    unfold Instruction0, Instruction1, Instruction2, Instruction3;
    cbv zeta; apply assert_bind.
Qed.

Lemma Instruction_new_Done (op_ : Opcode) (a : Operands) :
  op_arity op_ = Z.of_nat (operand_count a) ->
  Instruction_new op_ a = Done (built op_ a).
Proof.
  intros H. rewrite Instruction_new_unfold.
  apply Z.eqb_eq in H. now rewrite H.
Qed.

Lemma Instruction_new_Abort (op_ : Opcode) (a : Operands) :
  op_arity op_ <> Z.of_nat (operand_count a) ->
  Instruction_new op_ a = Abort.
Proof.
  intros H. rewrite Instruction_new_unfold.
  apply Z.eqb_neq in H. now rewrite H.
Qed.

Lemma Instruction_new_succeeds_iff (op_ : Opcode) (a : Operands) :
  succeeds (Instruction_new op_ a) <-> op_arity op_ = Z.of_nat (operand_count a).
Proof.
  rewrite Instruction_new_unfold.
  destruct (Z.eqb_spec (op_arity op_) (Z.of_nat (operand_count a))) as [E | E].
  - split; [intros _; exact E | intros _; apply succeeds_Done].
  - split; [intros H; now apply not_succeeds_Abort in H | contradiction].
Qed.

Lemma Instruction_new_aborts_iff (op_ : Opcode) (a : Operands) :
  aborts (Instruction_new op_ a) <-> op_arity op_ <> Z.of_nat (operand_count a).
Proof.
  rewrite <- Instruction_new_succeeds_iff, succeeds_or_aborts.
  unfold aborts. destruct (Instruction_new op_ a); split; try congruence.
  intros H. exfalso. apply H. discriminate.
Qed.

(** C2: for every opcode and each of the four constructors (0, 1, 2 and 3
    operands), the call succeeds if and only if the arity of the opcode is
    the number of operands of that constructor, and it aborts on the
    assertion for any other count. *)
Theorem constructor_succeeds_iff_arity :
  forall (op_ : Opcode) (arg0 arg1 arg2 : Z),
    ((succeeds (Instruction0 op_) <-> op_arity op_ = 0)
     /\ (succeeds (Instruction1 op_ arg0) <-> op_arity op_ = 1)
     /\ (succeeds (Instruction2 op_ arg0 arg1) <-> op_arity op_ = 2)
     /\ (succeeds (Instruction3 op_ arg0 arg1 arg2) <-> op_arity op_ = 3))
    /\ ((aborts (Instruction0 op_) <-> op_arity op_ <> 0)
        /\ (aborts (Instruction1 op_ arg0) <-> op_arity op_ <> 1)
        /\ (aborts (Instruction2 op_ arg0 arg1) <-> op_arity op_ <> 2)
        /\ (aborts (Instruction3 op_ arg0 arg1 arg2) <-> op_arity op_ <> 3))
    /\ (forall a : Operands,
          succeeds (Instruction_new op_ a)
          <-> op_arity op_ = Z.of_nat (operand_count a)).
Proof.
  intros op_ arg0 arg1 arg2.
  split; [| split].
  - split; [| split; [| split]].
    + apply (Instruction_new_succeeds_iff op_ Ops0).
    + apply (Instruction_new_succeeds_iff op_ (Ops1 arg0)).
    + apply (Instruction_new_succeeds_iff op_ (Ops2 arg0 arg1)).
    + apply (Instruction_new_succeeds_iff op_ (Ops3 arg0 arg1 arg2)).
  - split; [| split; [| split]].
    + apply (Instruction_new_aborts_iff op_ Ops0).
    + apply (Instruction_new_aborts_iff op_ (Ops1 arg0)).
    + apply (Instruction_new_aborts_iff op_ (Ops2 arg0 arg1)).
    + apply (Instruction_new_aborts_iff op_ (Ops3 arg0 arg1 arg2)).
  - intros a. apply Instruction_new_succeeds_iff.
Qed.

Lemma built_arg_length (op_ : Opcode) (a : Operands) :
  List.length (arg (built op_ a)) = 3%nat.
Proof. destruct a; reflexivity. Qed.

Lemma built_unused_zero (op_ : Opcode) (a : Operands) (j : nat) :
  (operand_count a <= j < 3)%nat -> arg_at (built op_ a) j = Some 0.
Proof.
  unfold arg_at.
  destruct a; cbn [operand_count operand_list List.length built arg];
    intros [Hlo Hhi];
    destruct j as [| [| [| j]]]; try reflexivity; lia.
Qed.

Lemma built_used_slots (op_ : Opcode) (a : Operands) (j : nat) :
  Forall is_uint16 (operand_list a) ->
  (j < operand_count a)%nat ->
  arg_at (built op_ a) j = nth_error (operand_list a) j.
Proof.
  unfold arg_at. intros Hr Hj.
  destruct a; cbn [operand_count operand_list List.length built arg] in *;
    repeat match goal with
           | H : Forall _ (_ :: _) |- _ => inversion H; subst; clear H
           end;
    rewrite ?to_uint16_id by assumption;
    destruct j as [| [| [| j]]]; try reflexivity; lia.
Qed.

(** C8: every instruction a constructor produces has its unused trailing
    slots at zero: when the arity of the opcode is the operand count [k] of
    the constructor, the call returns an instruction whose [arg[j]] is 0 for
    every [j] with [k <= j < 3]. *)
Theorem unused_slots_are_zero :
  forall (op_ : Opcode) (a : Operands) (j : nat),
    op_arity op_ = Z.of_nat (operand_count a) ->
    (operand_count a <= j < 3)%nat ->
    exists i : Instruction,
      Instruction_new op_ a = Done i
      /\ List.length (arg i) = 3%nat
      /\ arg_at i j = Some 0.
Proof.
  intros op_ a j Harity Hj.
  exists (built op_ a). split; [| split].
  - now apply Instruction_new_Done.
  - apply built_arg_length.
  - now apply built_unused_zero.
Qed.

Lemma unused_slots_are_zero_witness :
  op_arity ADD = Z.of_nat (operand_count (Ops2 5 7))
  /\ (operand_count (Ops2 5 7) <= 2 < 3)%nat
  /\ exists i : Instruction,
       Instruction_new ADD (Ops2 5 7) = Done i
       /\ List.length (arg i) = 3%nat
       /\ arg_at i 2 = Some 0.
Proof.
  split; [reflexivity | split; [cbn; lia |]].
  apply (unused_slots_are_zero ADD (Ops2 5 7) 2); [reflexivity | cbn; lia].
Defined.

(** C9: the constructors store their arguments as given: when the arity of
    the opcode is the operand count [k] and the operands are 16-bit values,
    the instruction returned has [op] equal to the opcode and [arg[j]] equal
    to the [j]-th operand for every [j < k], in the order written. *)
Theorem constructor_stores_verbatim :
  forall (op_ : Opcode) (a : Operands),
    op_arity op_ = Z.of_nat (operand_count a) ->
    Forall is_uint16 (operand_list a) ->
    exists i : Instruction,
      Instruction_new op_ a = Done i
      /\ op i = op_
      /\ (forall j : nat,
             (j < operand_count a)%nat ->
             arg_at i j = nth_error (operand_list a) j)
      /\ firstn (operand_count a) (arg i) = operand_list a.
Proof.
  intros op_ a Harity Hr.
  exists (built op_ a). split; [| split; [| split]].
  - now apply Instruction_new_Done.
  - destruct a; reflexivity.
  - intros j Hj. now apply built_used_slots.
  - destruct a; cbn [operand_count operand_list List.length built arg firstn] in *;
      repeat match goal with
             | H : Forall _ (_ :: _) |- _ => inversion H; subst; clear H
             end;
      rewrite ?to_uint16_id by assumption; reflexivity.
Qed.

Lemma constructor_stores_verbatim_witness :
  op_arity SETI = Z.of_nat (operand_count (Ops3 65535 0 258))
  /\ Forall is_uint16 (operand_list (Ops3 65535 0 258))
  /\ exists i : Instruction,
       Instruction_new SETI (Ops3 65535 0 258) = Done i
       /\ op i = SETI
       /\ (forall j : nat,
              (j < operand_count (Ops3 65535 0 258))%nat ->
              arg_at i j = nth_error (operand_list (Ops3 65535 0 258)) j)
       /\ firstn (operand_count (Ops3 65535 0 258)) (arg i)
          = operand_list (Ops3 65535 0 258).
Proof.
  assert (Hr : Forall is_uint16 (operand_list (Ops3 65535 0 258)))
    by (repeat constructor; unfold is_uint16; lia).
  split; [reflexivity | split; [exact Hr |]].
  apply (constructor_stores_verbatim SETI (Ops3 65535 0 258)); [reflexivity | exact Hr].
Defined.

(** ** Function: appends *)

Lemma push_back_length {A : Type} (v : list A) (x : A) :
  List.length (push_back v x) = S (List.length v).
Proof. unfold push_back. rewrite length_app. cbn. lia. Qed.

Lemma push_back_last {A : Type} (v : list A) (x : A) :
  nth_error (push_back v x) (List.length v) = Some x.
Proof.
  unfold push_back. rewrite nth_error_app2 by lia.
  now rewrite Nat.sub_diag.
Qed.

Lemma push_back_prefix {A : Type} (v : list A) (x : A) (n : nat) :
  (n < List.length v)%nat -> nth_error (push_back v x) n = nth_error v n.
Proof. intros H. unfold push_back. now apply nth_error_app1. Qed.

(** C10: each append touches its own vector only.  Appending an instruction
    to [text] leaves [strk_table], [intk_table], [num_pos_args] and
    [num_upvalues] as they were; appending to [intk_table] leaves [text],
    [strk_table] and the two counts; appending to [strk_table] leaves [text],
    [intk_table] and the two counts. *)
Theorem append_frame :
  forall (func : Function) (i : Instruction) (k : Z) (s : string),
    (strk_table (text_push_back func i) = strk_table func
     /\ intk_table (text_push_back func i) = intk_table func
     /\ num_pos_args (text_push_back func i) = num_pos_args func
     /\ num_upvalues (text_push_back func i) = num_upvalues func)
    /\ (text (intk_table_push_back func k) = text func
        /\ strk_table (intk_table_push_back func k) = strk_table func
        /\ num_pos_args (intk_table_push_back func k) = num_pos_args func
        /\ num_upvalues (intk_table_push_back func k) = num_upvalues func)
    /\ (text (strk_table_push_back func s) = text func
        /\ intk_table (strk_table_push_back func s) = intk_table func
        /\ num_pos_args (strk_table_push_back func s) = num_pos_args func
        /\ num_upvalues (strk_table_push_back func s) = num_upvalues func)
    /\ (text (text_push_back func i) = text func ++ [i]
        /\ intk_table (intk_table_push_back func k)
           = intk_table func ++ [to_int32 k]
        /\ strk_table (strk_table_push_back func s) = strk_table func ++ [s]).
Proof.
  intros func i k s.
  destruct func as [npa nuv strk intk txt].
  cbn [text_push_back intk_table_push_back strk_table_push_back
       num_pos_args num_upvalues strk_table intk_table text push_back].
  repeat split.
Qed.

(** C7: the constant-pool index is not checked.  For every function and
    every 16-bit index [k], whatever the lengths of the constant tables,
    [Instruction(STRK, k)] and [Instruction(INTK, k)] are constructed with
    [k] in slot 0, and appending either to [text] puts it at the end of
    [text]; neither step aborts. *)
Theorem constant_index_unchecked :
  forall (func : Function) (k : Z),
    is_uint16 k ->
    (exists i : Instruction,
        Instruction1 STRK k = Done i
        /\ op i = STRK /\ arg i = [k; 0; 0]
        /\ text (text_push_back func i) = text func ++ [i]
        /\ strk_table (text_push_back func i) = strk_table func)
    /\ (exists i : Instruction,
           Instruction1 INTK k = Done i
           /\ op i = INTK /\ arg i = [k; 0; 0]
           /\ text (text_push_back func i) = text func ++ [i]
           /\ intk_table (text_push_back func i) = intk_table func).
Proof.
  intros func k Hk.
  split.
  - exists {| op := STRK; arg := [k; 0; 0] |}.
    unfold Instruction1. cbv zeta. rewrite (to_uint16_id k Hk).
    repeat split.
  - exists {| op := INTK; arg := [k; 0; 0] |}.
    unfold Instruction1. cbv zeta. rewrite (to_uint16_id k Hk).
    repeat split.
Qed.

(** The scenario of the specification: a STRK (and an INTK) whose index is
    the length of the table, here 7 with empty tables. *)
Lemma constant_index_unchecked_witness :
  is_uint16 7
  /\ (Z.of_nat (List.length (strk_table (Function_default 0 0))) <= 7)
  /\ (Z.of_nat (List.length (intk_table (Function_default 0 0))) <= 7)
  /\ (exists i : Instruction,
         Instruction1 STRK 7 = Done i
         /\ op i = STRK /\ arg i = [7; 0; 0]
         /\ text (text_push_back (Function_default 0 0) i)
            = text (Function_default 0 0) ++ [i]
         /\ strk_table (text_push_back (Function_default 0 0) i)
            = strk_table (Function_default 0 0))
  /\ (exists i : Instruction,
         Instruction1 INTK 7 = Done i
         /\ op i = INTK /\ arg i = [7; 0; 0]
         /\ text (text_push_back (Function_default 0 0) i)
            = text (Function_default 0 0) ++ [i]
         /\ intk_table (text_push_back (Function_default 0 0) i)
            = intk_table (Function_default 0 0)).
Proof.
  split; [unfold is_uint16; lia |].
  split; [cbn; lia |].
  split; [cbn; lia |].
  apply (constant_index_unchecked (Function_default 0 0) 7).
  unfold is_uint16; lia.
Defined.

(** ** The demo *)

(** C4: the function [main] builds has a [text] of length 6 with opcodes
    INTK, ADD, INTK, EQ, ASSERT, RET in this order, [intk_table] equal to
    [1; 2] and an empty [strk_table]; no constructor call in it aborts, and
    the result does not depend on the uninitialised counts. *)
Theorem main_builds_demo :
  forall junk_pos_args junk_upvalues : Z,
    exists func : Function,
      main_func junk_pos_args junk_upvalues = Done func
      /\ List.length (text func) = 6%nat
      /\ map op (text func) = [INTK; ADD; INTK; EQ; ASSERT; RET]
      /\ intk_table func = [1; 2]
      /\ strk_table func = []
      /\ map arg (text func)
         = [[0; 0; 0]; [0; 0; 0]; [1; 0; 0]; [2; 3; 0]; [4; 0; 0]; [2; 0; 0]]
      /\ num_pos_args func = 0
      /\ num_upvalues func = 0.
Proof.
  intros junk_pos_args junk_upvalues.
  eexists. split; [reflexivity |].
  repeat split.
Qed.

(** ** [op_has_result] *)






(** * Further properties *)

(** ** The enumeration *)

Lemma catalog_NoDup : NoDup catalog.
Proof.
  assert (H : NoDup (map underlying catalog)).
  { cbn. repeat (constructor; [cbn; intuition discriminate |]). constructor. }
  now apply NoDup_map_inv in H.
Qed.

(** X1: the 61 enumerators have pairwise distinct underlying values, these
    values are exactly 0 .. 60 (so they fit [uint8_t]), and comparing two
    opcodes with [==] decides their equality. *)
Theorem underlying_enumerates :
  (forall op : Opcode, 0 <= underlying op < 61)
  /\ (forall a b : Opcode, underlying a = underlying b <-> a = b)
  /\ (forall n : Z, 0 <= n < 61 <-> exists op : Opcode, underlying op = n)
  /\ (forall a b : Opcode, (a ==? b) = true <-> a = b)
  /\ NoDup catalog
  /\ List.length catalog = 61%nat.
Proof.
  split; [intros op; destruct op; cbn; lia |].
  split; [intros a b; split; [apply underlying_inj | now intros ->] |].
  split; [| split; [apply Opcode_eqb_eq | split; [apply catalog_NoDup | reflexivity]]].
  intros n. split.
  - intros Hn.
    destruct (nth_error catalog (Z.to_nat n)) as [op |] eqn:E.
    + exists op.
      assert (Hlt : (Z.to_nat n < 61)%nat) by lia.
      pose proof (catalog_nth op) as Hop.
      pose proof catalog_NoDup as Hnd.
      rewrite NoDup_nth_error in Hnd.
      assert (Hidx : Z.to_nat n = Z.to_nat (underlying op)).
      { apply Hnd; [rewrite catalog_length; exact Hlt | congruence]. }
      pose proof (underlying_uint8 op). lia.
    + apply nth_error_None in E. rewrite catalog_length in E. lia.
  - intros [op <-]. destruct op; cbn; lia.
Qed.

(** ** One constructor per opcode *)

(** X2: for every opcode exactly one of the four constructors succeeds: there
    is one operand count among 0, 1, 2, 3 such that a constructor call on this
    opcode succeeds if and only if it passes that many operands, whatever the
    operand values are. *)
Theorem exactly_one_constructor :
  forall op_ : Opcode,
    exists k : nat,
      In k [0; 1; 2; 3]%nat
      /\ (forall a : Operands,
             succeeds (Instruction_new op_ a) <-> operand_count a = k)
      /\ (forall a : Operands,
             aborts (Instruction_new op_ a) <-> operand_count a <> k).
Proof.
  intros op_. exists (Z.to_nat (op_arity op_)).
  pose proof (op_arity_range op_) as Hr.
  split; [| split].
  - destruct op_; cbn; tauto.
  - intros a. rewrite Instruction_new_succeeds_iff. lia.
  - intros a. rewrite Instruction_new_aborts_iff. lia.
Qed.

(** ** Branch opcodes carry their operands *)

(** X3: an instruction that a constructor returns for JUMP was built with
    exactly one operand, and one returned for a conditional branch (JT, JF,
    JFOR) with at least two: no constructor call yields a branch instruction
    without a slot for its target. *)
Theorem branch_instructions_have_operands :
  forall (op_ : Opcode) (a : Operands) (i : Instruction),
    Instruction_new op_ a = Done i ->
    (op_is_uncond_branch (op i) = true -> operand_count a = 1%nat)
    /\ (op_is_cond_branch (op i) = true -> (2 <= operand_count a)%nat)
    /\ (operand_count a = 0%nat ->
        op_is_cond_branch (op i) = false /\ op_is_uncond_branch (op i) = false).
Proof.
  intros op_ a i H.
  rewrite Instruction_new_unfold in H.
  destruct (Z.eqb_spec (op_arity op_) (Z.of_nat (operand_count a))) as [E | E];
    [| discriminate H].
  injection H as <-.
  assert (Hop : op (built op_ a) = op_) by (destruct a; reflexivity).
  rewrite Hop.
  split; [| split].
  - rewrite op_is_uncond_branch_iff. intros ->. cbn in E. lia.
  - rewrite op_is_cond_branch_iff. intros [-> | [-> | ->]]; cbn in E; lia.
  - intros H0. rewrite H0 in E.
    destruct op_; try discriminate E; split; reflexivity.
Qed.

Lemma branch_instructions_have_operands_witness :
  Instruction_new JFOR (Ops3 1 2 3)
  = Done {| op := JFOR; arg := [1; 2; 3] |}
  /\ (op_is_cond_branch JFOR = true -> (2 <= operand_count (Ops3 1 2 3))%nat).
Proof.
  split; [reflexivity |].
  apply (branch_instructions_have_operands JFOR (Ops3 1 2 3)
           {| op := JFOR; arg := [1; 2; 3] |}).
  reflexivity.
Defined.

(** ** Shape of constructed instructions *)

Lemma is_uint16b_iff (z : Z) : is_uint16b z = true <-> is_uint16 z.
Proof. unfold is_uint16b, is_uint16. lia. Qed.

Lemma is_int32b_iff (z : Z) : is_int32b z = true <-> is_int32 z.
Proof. unfold is_int32b, is_int32. lia. Qed.

Lemma is_uint16b_to_uint16 (z : Z) : is_uint16b (to_uint16 z) = true.
Proof. apply is_uint16b_iff, to_uint16_range. Qed.

Lemma to_int32_range (z : Z) : is_int32 (to_int32 z).
Proof.
  unfold is_int32, to_int32.
  pose proof (Z.mod_pos_bound (z + 2147483648) 4294967296). lia.
Qed.

Lemma is_int32b_to_int32 (z : Z) : is_int32b (to_int32 z) = true.
Proof. apply is_int32b_iff, to_int32_range. Qed.

Lemma to_uint16_idem (z : Z) : to_uint16 (to_uint16 z) = to_uint16 z.
Proof. apply to_uint16_id, to_uint16_range. Qed.

Lemma built_op (op_ : Opcode) (a : Operands) : op (built op_ a) = op_.
Proof. destruct a; reflexivity. Qed.

Lemma Instruction_new_inv (op_ : Opcode) (a : Operands) (i : Instruction) :
  Instruction_new op_ a = Done i ->
  op_arity op_ = Z.of_nat (operand_count a) /\ i = built op_ a.
Proof.
  rewrite Instruction_new_unfold.
  destruct (Z.eqb_spec (op_arity op_) (Z.of_nat (operand_count a))) as [E | E].
  - intros H. injection H as <-. now split.
  - discriminate.
Qed.

Lemma built_ok (op_ : Opcode) (a : Operands) :
  op_arity op_ = Z.of_nat (operand_count a) ->
  Instruction_ok (built op_ a) = true.
Proof.
  intros E. unfold Instruction_ok.
  rewrite built_op, E, Nat2Z.id.
  destruct a; cbn; rewrite ?is_uint16b_to_uint16; reflexivity.
Qed.

(** X4: whatever integers are passed as operands, also outside 0 .. 65535,
    an instruction returned by a constructor has exactly three slots, every
    slot holds a 16-bit value, namely the operand reduced modulo 65536 in the
    used slots, and 0 in every slot from the arity of its opcode on. *)
Theorem constructed_instruction_shape :
  forall (op_ : Opcode) (a : Operands) (i : Instruction),
    Instruction_new op_ a = Done i ->
    Instruction_ok i = true
    /\ List.length (arg i) = 3%nat
    /\ Forall is_uint16 (arg i)
    /\ firstn (operand_count a) (arg i) = map to_uint16 (operand_list a)
    /\ skipn (operand_count a) (arg i) = repeat 0 (3 - operand_count a).
Proof.
  intros op_ a i H.
  apply Instruction_new_inv in H as [E ->].
  split; [now apply built_ok |].
  split; [apply built_arg_length |].
  split.
  - destruct a; cbn;
      repeat (apply Forall_cons;
              [first [apply to_uint16_range | unfold is_uint16; lia] |]);
      apply Forall_nil.
  - destruct a; split; reflexivity.
Qed.

Lemma constructed_instruction_shape_witness :
  Instruction_new GETI (Ops2 65536 (-1))
  = Done {| op := GETI; arg := [0; 65535; 0] |}
  /\ Instruction_ok {| op := GETI; arg := [0; 65535; 0] |} = true.
Proof.
  split; [reflexivity |].
  apply (constructed_instruction_shape GETI (Ops2 65536 (-1))
           {| op := GETI; arg := [0; 65535; 0] |}).
  reflexivity.
Defined.

(** ** Reading an instruction back *)

Lemma operands_of_built (op_ : Opcode) (a : Operands) :
  op_arity op_ = Z.of_nat (operand_count a) ->
  operands_of (built op_ a) = Some (Operands_to_uint16 a).
Proof.
  intros E. unfold operands_of.
  rewrite built_op, E, Nat2Z.id.
  destruct a; reflexivity.
Qed.

Lemma operand_count_to_uint16 (a : Operands) :
  operand_count (Operands_to_uint16 a) = operand_count a.
Proof. destruct a; reflexivity. Qed.

Lemma built_to_uint16 (op_ : Opcode) (a : Operands) :
  built op_ (Operands_to_uint16 a) = built op_ a.
Proof. destruct a; cbn; rewrite ?to_uint16_idem; reflexivity. Qed.

(** X5: round trip.  From an instruction returned by a constructor, reading
    the first [op_arity] slots gives back the operands of the call (reduced
    modulo 65536; unchanged when they were 16-bit values), and calling the
    constructor again on the opcode and operands read back returns the same
    instruction. *)
Theorem read_back_round_trip :
  forall (op_ : Opcode) (a : Operands) (i : Instruction),
    Instruction_new op_ a = Done i ->
    operands_of i = Some (Operands_to_uint16 a)
    /\ Instruction_new (op i) (Operands_to_uint16 a) = Done i
    /\ (Forall is_uint16 (operand_list a) -> operands_of i = Some a).
Proof.
  intros op_ a i H.
  apply Instruction_new_inv in H as [E ->].
  split; [now apply operands_of_built |].
  split.
  - rewrite built_op, <- (built_to_uint16 op_ a).
    apply Instruction_new_Done. now rewrite operand_count_to_uint16.
  - intros Hr. rewrite (operands_of_built _ _ E). f_equal.
    destruct a; cbn in *;
      repeat match goal with
             | H : Forall _ (_ :: _) |- _ => inversion H; subst; clear H
             end;
      rewrite ?to_uint16_id by assumption; reflexivity.
Qed.

Lemma read_back_round_trip_witness :
  Instruction_new CMOV (Ops3 7 70000 9)
  = Done {| op := CMOV; arg := [7; 4464; 9] |}
  /\ operands_of {| op := CMOV; arg := [7; 4464; 9] |}
     = Some (Operands_to_uint16 (Ops3 7 70000 9)).
Proof.
  split; [reflexivity |].
  apply (read_back_round_trip CMOV (Ops3 7 70000 9)
           {| op := CMOV; arg := [7; 4464; 9] |}).
  reflexivity.
Defined.

(** ** When two constructor calls build the same instruction *)

(** X6: two successful constructor calls return the same instruction if and
    only if they name the same opcode and their operands agree modulo 65536
    one by one; in particular operands that differ by a multiple of 65536
    are not told apart, and distinct 16-bit operands always are. *)
Theorem same_instruction_iff :
  forall (op1 op2 : Opcode) (a1 a2 : Operands) (i1 i2 : Instruction),
    Instruction_new op1 a1 = Done i1 ->
    Instruction_new op2 a2 = Done i2 ->
    (i1 = i2
     <-> op1 = op2
         /\ map to_uint16 (operand_list a1) = map to_uint16 (operand_list a2)).
Proof.
  intros op1 op2 a1 a2 i1 i2 H1 H2.
  apply Instruction_new_inv in H1 as [E1 ->].
  apply Instruction_new_inv in H2 as [E2 ->].
  split.
  - intros H.
    assert (Hop : op1 = op2)
      by (rewrite <- (built_op op1 a1), <- (built_op op2 a2), H; reflexivity).
    subst op2. split; [reflexivity |].
    assert (Hc : operand_count a1 = operand_count a2) by lia.
    assert (Ha : arg (built op1 a1) = arg (built op1 a2)) by (now rewrite H).
    destruct a1, a2; cbn in Hc; try discriminate Hc; cbn in Ha |- *;
      congruence.
  - intros [<- Hm].
    destruct a1, a2; cbn in Hm; try discriminate Hm; cbn;
      try reflexivity; congruence.
Qed.

Lemma same_instruction_iff_witness :
  Instruction_new INTK (Ops1 65536) = Done {| op := INTK; arg := [0; 0; 0] |}
  /\ Instruction_new INTK (Ops1 0) = Done {| op := INTK; arg := [0; 0; 0] |}
  /\ ({| op := INTK; arg := [0; 0; 0] |} = {| op := INTK; arg := [0; 0; 0] |}
      <-> INTK = INTK
          /\ map to_uint16 (operand_list (Ops1 65536))
             = map to_uint16 (operand_list (Ops1 0))).
Proof.
  split; [reflexivity | split; [reflexivity |]].
  apply (same_instruction_iff INTK INTK (Ops1 65536) (Ops1 0)); reflexivity.
Defined.

(** ** Build scripts *)

Lemma main_func_as_script (junk_pos_args junk_upvalues : Z) :
  main_func junk_pos_args junk_upvalues
  = run main_script
        (set_num_upvalues
           (set_num_pos_args (Function_default junk_pos_args junk_upvalues) 0) 0).
Proof. reflexivity. Qed.

Lemma step_unfold (func : Function) (s : BuildStep) :
  step func s = if step_ok s then Done (extended func [s]) else Abort.
Proof.
  destruct func as [npa nuv strk intk txt].
  destruct s as [k | s | op_ a]; cbn [step step_ok].
  - unfold extended, intk_table_push_back, push_back. cbn.
    now rewrite !app_nil_r.
  - unfold extended, strk_table_push_back, push_back. cbn.
    now rewrite !app_nil_r.
  - rewrite Instruction_new_unfold.
    destruct (op_arity op_ =? Z.of_nat (operand_count a)); [| reflexivity].
    unfold extended, text_push_back, push_back. cbn.
    now rewrite !app_nil_r.
Qed.

Lemma extended_cons (func : Function) (s : BuildStep) (rest : list BuildStep) :
  extended (extended func [s]) rest = extended func (s :: rest).
Proof.
  unfold extended. cbn [num_pos_args num_upvalues strk_table intk_table text].
  destruct s; cbn; rewrite ?app_nil_r, <- ?app_assoc; reflexivity.
Qed.

Lemma run_unfold (script : list BuildStep) (func : Function) :
  run script func
  = if forallb step_ok script then Done (extended func script) else Abort.
Proof.
  revert func. induction script as [| s rest IH]; intros func.
  - destruct func. unfold extended. cbn. now rewrite !app_nil_r.
  - cbn [run forallb]. rewrite step_unfold.
    destruct (step_ok s); cbn [bind andb]; [| reflexivity].
    rewrite IH, extended_cons. reflexivity.
Qed.

(** X7: a build script runs to its end exactly when every constructor call in
    it passes as many operands as the arity of its opcode, and it aborts
    otherwise.  When it runs to its end, [text] is the old [text] followed by
    the instructions built, in script order, [intk_table] and [strk_table] are
    the old tables followed by the constants pushed, in script order, and the
    two counts are unchanged. *)
Theorem run_script_result :
  forall (script : list BuildStep) (func : Function),
    run script func
    = (if forallb step_ok script then Done (extended func script) else Abort)
    /\ (succeeds (run script func)
        <-> Forall
              (fun s =>
                 forall op_ a, s = Emit op_ a ->
                               op_arity op_ = Z.of_nat (operand_count a))
              script)
    /\ (aborts (run script func)
        <-> exists op_ a,
              In (Emit op_ a) script
              /\ op_arity op_ <> Z.of_nat (operand_count a)).
Proof.
  intros script func.
  assert (Hall : forallb step_ok script = true
                 <-> Forall
                       (fun s =>
                          forall op_ a, s = Emit op_ a ->
                                        op_arity op_ = Z.of_nat (operand_count a))
                       script).
  { rewrite forallb_forall, Forall_forall. split.
    - intros H s Hin op_ a ->. specialize (H _ Hin). cbn in H.
      now apply Z.eqb_eq.
    - intros H s Hin. destruct s as [k | s | op_ a]; try reflexivity.
      cbn. apply Z.eqb_eq. now apply (H _ Hin). }
  split; [apply run_unfold |].
  rewrite run_unfold. split.
  - rewrite <- Hall.
    destruct (forallb step_ok script).
    + split; [reflexivity | intros _; apply succeeds_Done].
    + split; [intros H; now apply not_succeeds_Abort in H | discriminate].
  - unfold aborts.
    destruct (forallb step_ok script) eqn:E.
    + split; [discriminate |].
      intros (op_ & a & Hin & Hne).
      rewrite forallb_forall in E. specialize (E _ Hin). cbn in E.
      apply Z.eqb_eq in E. contradiction.
    + split; [intros _ | reflexivity].
      assert (Hex : existsb (fun s => negb (step_ok s)) script = true).
      { clear -E. induction script as [| s rest IH]; [discriminate E |].
        cbn in *. destruct (step_ok s); cbn in *; [now apply IH | reflexivity]. }
      apply existsb_exists in Hex as (s & Hin & Hs).
      destruct s as [k | s | op_ a]; try discriminate Hs.
      exists op_, a. split; [exact Hin |].
      cbn in Hs. apply negb_true_iff, Z.eqb_neq in Hs. exact Hs.
Qed.

Lemma run_inv (script : list BuildStep) (func func' : Function) :
  run script func = Done func' -> func' = extended func script.
Proof.
  rewrite run_unfold. destruct (forallb step_ok script); congruence.
Qed.

Lemma nth_error_app_keep {A : Type} (l l' : list A) (n : nat) (x : A) :
  nth_error l n = Some x -> nth_error (l ++ l') n = Some x.
Proof.
  intros H. rewrite nth_error_app1; [exact H |].
  apply nth_error_Some. congruence.
Qed.

(** X8: appends never move or change what is already stored.  After any
    script that runs to its end, every index that was valid in [text],
    [intk_table] or [strk_table] is still valid and holds the same element,
    so a constant index handed out earlier keeps referring to the same
    constant; no vector gets shorter. *)
Theorem run_keeps_indices :
  forall (script : list BuildStep) (func func' : Function),
    run script func = Done func' ->
    (forall n i, nth_error (text func) n = Some i ->
                 nth_error (text func') n = Some i)
    /\ (forall n k, nth_error (intk_table func) n = Some k ->
                    nth_error (intk_table func') n = Some k)
    /\ (forall n s, nth_error (strk_table func) n = Some s ->
                    nth_error (strk_table func') n = Some s)
    /\ (List.length (text func) <= List.length (text func'))%nat
    /\ (List.length (intk_table func) <= List.length (intk_table func'))%nat
    /\ (List.length (strk_table func) <= List.length (strk_table func'))%nat.
Proof.
  intros script func func' H.
  apply run_inv in H. subst func'.
  unfold extended. cbn [text intk_table strk_table].
  repeat split;
    first [ intros n x Hx; now apply nth_error_app_keep
          | rewrite length_app; lia ].
Qed.

Lemma run_keeps_indices_witness :
  exists func' : Function,
    run [PushIntk 3; Emit LEN (Ops1 0)]
        (extended (Function_default 0 0) [PushIntk 1; Emit INTK (Ops1 0)])
    = Done func'
    /\ nth_error (intk_table func') 0 = Some 1
    /\ nth_error (text func') 0 = Some {| op := INTK; arg := [0; 0; 0] |}.
Proof.
  eexists. split; [reflexivity |].
  pose proof
    (run_keeps_indices
       [PushIntk 3; Emit LEN (Ops1 0)]
       (extended (Function_default 0 0) [PushIntk 1; Emit INTK (Ops1 0)])
       _ eq_refl) as (Ht & Hi & _).
  split; [apply Hi | apply Ht]; reflexivity.
Defined.

(** ** The shape invariant of a function under construction *)

Lemma forallb_emitted_ok (script : list BuildStep) :
  forallb step_ok script = true ->
  forallb Instruction_ok (emitted script) = true.
Proof.
  induction script as [| s rest IH]; [reflexivity |].
  cbn [forallb]. rewrite andb_true_iff. intros [Hs Hrest].
  destruct s as [k | s | op_ a]; try now apply IH.
  change (emitted (Emit op_ a :: rest)) with (built op_ a :: emitted rest).
  cbn [forallb]. rewrite (IH Hrest), andb_true_r.
  apply built_ok. now apply Z.eqb_eq.
Qed.

Lemma forallb_pushed_intk (script : list BuildStep) :
  forallb is_int32b (pushed_intk script) = true.
Proof.
  induction script as [| s rest IH]; [reflexivity |].
  destruct s as [k | s | op_ a]; try exact IH.
  change (pushed_intk (PushIntk k :: rest)) with (to_int32 k :: pushed_intk rest).
  cbn [forallb]. now rewrite is_int32b_to_int32, IH.
Qed.

Lemma run_preserves_ok (script : list BuildStep) (func func' : Function) :
  Function_ok func = true ->
  run script func = Done func' ->
  Function_ok func' = true.
Proof.
  intros Hok H.
  assert (Hs : forallb step_ok script = true).
  { rewrite run_unfold in H. destruct (forallb step_ok script);
      [reflexivity | discriminate H]. }
  apply run_inv in H. subst func'.
  unfold Function_ok in *. apply andb_true_iff in Hok as [Ht Hi].
  unfold extended. cbn [text intk_table].
  now rewrite !forallb_app, Ht, Hi, forallb_emitted_ok, forallb_pushed_intk.
Qed.

Lemma Function_ok_Forall (func : Function) :
  Function_ok func = true ->
  Forall (fun i => Instruction_ok i = true) (text func)
  /\ Forall is_int32 (intk_table func).
Proof.
  unfold Function_ok. rewrite andb_true_iff, !forallb_forall, !Forall_forall.
  intros [Ht Hi]. split; [exact Ht |].
  intros k Hin. now apply is_int32b_iff, Hi.
Qed.

Lemma Function_default_ok (junk_pos_args junk_upvalues : Z) :
  Function_ok (Function_default junk_pos_args junk_upvalues) = true.
Proof. reflexivity. Qed.

Lemma set_counts_ok (func : Function) (n m : Z) :
  Function_ok (set_num_upvalues (set_num_pos_args func n) m) = Function_ok func.
Proof. reflexivity. Qed.

(** X9: a function built only through the constructors and [push_back] keeps
    its shape.  The default-initialised function has it, whatever its two
    counts hold; if a function has it (every instruction has three 16-bit
    slots with zeros from its arity on, every integer constant is a 32-bit
    value), so does the function any script that runs to its end leaves; hence
    every function built from the default one by assignments to the counts
    and a script has it, and so has the function [main] builds, whatever the
    counts held before. *)
Theorem run_keeps_shape :
  (forall junk_pos_args junk_upvalues : Z,
      Function_ok (Function_default junk_pos_args junk_upvalues) = true)
  /\ (forall (script : list BuildStep) (func func' : Function),
         Function_ok func = true ->
         run script func = Done func' ->
         Function_ok func' = true
         /\ Forall (fun i => Instruction_ok i = true) (text func')
         /\ Forall is_int32 (intk_table func'))
  /\ (forall (script : list BuildStep) (junk_pos_args junk_upvalues n m : Z)
             (func' : Function),
         run script
             (set_num_upvalues
                (set_num_pos_args
                   (Function_default junk_pos_args junk_upvalues) n) m)
         = Done func' ->
         Function_ok func' = true)
  /\ (forall junk_pos_args junk_upvalues : Z,
         exists func' : Function,
           main_func junk_pos_args junk_upvalues = Done func'
           /\ Function_ok func' = true
           /\ Forall (fun i => Instruction_ok i = true) (text func')
           /\ Forall is_int32 (intk_table func')).
Proof.
  split; [exact Function_default_ok |].
  split; [| split].
  - intros script func func' Hok H.
    pose proof (run_preserves_ok script func func' Hok H) as Hok'.
    split; [exact Hok' | now apply Function_ok_Forall].
  - intros script j1 j2 n m func' H.
    eapply run_preserves_ok; [| exact H].
    rewrite set_counts_ok. apply Function_default_ok.
  - intros j1 j2.
    destruct (main_func j1 j2) as [func' |] eqn:E; [| discriminate E].
    exists func'. split; [reflexivity |].
    rewrite main_func_as_script in E.
    assert (Hok : Function_ok func' = true).
    { eapply run_preserves_ok; [| exact E].
      rewrite set_counts_ok. apply Function_default_ok. }
    split; [exact Hok | now apply Function_ok_Forall].
Qed.

Lemma run_keeps_shape_witness :
  Function_ok (Function_default 5 (-9)) = true
  /\ (exists func' : Function,
         run [PushIntk 4294967297; Emit GETI (Ops2 65536 (-1)); PushStrk "s"%string]
             (Function_default 5 (-9))
         = Done func'
         /\ Function_ok func' = true)
  /\ (exists func' : Function,
         main_func 5 (-9) = Done func' /\ Function_ok func' = true).
Proof.
  pose proof run_keeps_shape as (Hdefault & Hkeep & _ & Hmain).
  split; [apply Hdefault |].
  split.
  - pose proof
      (Hkeep [PushIntk 4294967297; Emit GETI (Ops2 65536 (-1)); PushStrk "s"%string]
             (Function_default 5 (-9)) _ (Hdefault 5 (-9)) eq_refl)
      as (Hok & _).
    eexists. split; [reflexivity | exact Hok].
  - destruct (Hmain 5 (-9)) as (func' & E & Hok & _).
    exists func'. split; [exact E | exact Hok].
Defined.

(** ** Order of statements on different vectors *)

(** X10: two adjacent statements that append to different vectors can be
    exchanged: the script aborts in both orders or leaves the same function
    in both orders. *)
Theorem swap_independent_steps :
  forall (s1 s2 : BuildStep) (rest : list BuildStep) (func : Function),
    target s1 <> target s2 ->
    run (s1 :: s2 :: rest) func = run (s2 :: s1 :: rest) func.
Proof.
  intros s1 s2 rest func H.
  rewrite !run_unfold. cbn [forallb].
  rewrite !andb_assoc, (andb_comm (step_ok s1) (step_ok s2)).
  destruct (step_ok s2 && step_ok s1 && forallb step_ok rest); [| reflexivity].
  f_equal.
  destruct s1, s2; first [reflexivity | exfalso; apply H; reflexivity].
Qed.

Lemma swap_independent_steps_witness :
  target (PushIntk 2) <> target (Emit INTK (Ops1 1))
  /\ run [PushIntk 2; Emit INTK (Ops1 1); Emit RET (Ops1 0)] (Function_default 0 0)
     = run [Emit INTK (Ops1 1); PushIntk 2; Emit RET (Ops1 0)] (Function_default 0 0).
Proof.
  assert (H : target (PushIntk 2) <> target (Emit INTK (Ops1 1)))
    by (cbn; discriminate).
  split; [exact H |].
  apply (swap_independent_steps (PushIntk 2) (Emit INTK (Ops1 1))
           [Emit RET (Ops1 0)] (Function_default 0 0) H).
Defined.

(** ** The instructions the constructors can build *)

Lemma ok_is_constructed (i : Instruction) :
  Instruction_ok i = true ->
  exists a : Operands,
    operands_of i = Some a /\ Instruction_new (op i) a = Done i.
Proof.
  destruct i as [o args]. unfold Instruction_ok, operands_of. cbn [op arg].
  intros H.
  apply andb_true_iff in H as [H Hz]. apply andb_true_iff in H as [Hl Hr].
  destruct args as [| x [| y [| z [| w t]]]]; try discriminate Hl.
  cbn [forallb] in Hr.
  repeat match goal with
         | H : _ && _ = true |- _ => apply andb_true_iff in H as [? ?]
         end.
  repeat match goal with
         | H : is_uint16b _ = true |- _ => apply is_uint16b_iff in H
         end.
  pose proof (op_arity_range o) as Hrange.
  destruct (Z.to_nat (op_arity o)) as [| [| [| [| n]]]] eqn:En; try lia;
    cbn [skipn forallb] in Hz;
    repeat match goal with
           | H : _ && _ = true |- _ => apply andb_true_iff in H as [? ?]
           end;
    repeat match goal with
           | H : (0 =? _) = true |- _ => apply Z.eqb_eq in H; subst
           end.
  - exists Ops0. split; [reflexivity |].
    rewrite Instruction_new_Done; [reflexivity | cbn; lia].
  - exists (Ops1 x). split; [reflexivity |].
    rewrite Instruction_new_Done; [| cbn; lia].
    cbn. now rewrite !to_uint16_id.
  - exists (Ops2 x y). split; [reflexivity |].
    rewrite Instruction_new_Done; [| cbn; lia].
    cbn. now rewrite !to_uint16_id.
  - exists (Ops3 x y z). split; [reflexivity |].
    rewrite Instruction_new_Done; [| cbn; lia].
    cbn. now rewrite !to_uint16_id.
Qed.

(** X11: the constructors build exactly the instructions of the right shape:
    an [Instruction] value is returned by some constructor call if and only if
    it has three 16-bit slots with zeros from the arity of its opcode on; and
    for such a value the operands read back from it rebuild it. *)
Theorem constructible_iff_ok :
  forall i : Instruction,
    ((exists (op_ : Opcode) (a : Operands), Instruction_new op_ a = Done i)
     <-> Instruction_ok i = true)
    /\ (Instruction_ok i = true
        <-> exists a : Operands,
              operands_of i = Some a /\ Instruction_new (op i) a = Done i).
Proof.
  intros i. split; split.
  - intros (op_ & a & H). apply Instruction_new_inv in H as [E ->].
    now apply built_ok.
  - intros H. apply ok_is_constructed in H as (a & _ & Ha). now exists (op i), a.
  - apply ok_is_constructed.
  - intros (a & _ & H). apply Instruction_new_inv in H as [E Hi].
    rewrite Hi at 1. now apply built_ok.
Qed.
